(** * Yahtzee scoring rules ([src/Rules.js])

    A shallow embedding of the scoring rules of the Yahtzee game and the
    properties of the rule catalog.

    Dice values are JavaScript numbers; every value the rules are given is a
    small integer, so a number is modelled as [Z].  An array of dice is a
    [list Z].  A call either completes with a value or throws; the only
    exception the rules can raise is the [TypeError] of [Array.prototype.reduce]
    on an empty array without an initial value. *)

From stdpp Require Import base decidable option list gmap sets fin_sets strings.
From Stdlib Require Import ZArith Lia.

Local Open Scope Z_scope.

(** ** Completion of a call *)

Inductive result (A : Type) : Type :=
  | Ok (a : A)
  | TypeError.
Arguments Ok {A} a.
Arguments TypeError {A}.

(** ** JavaScript [Map], restricted to number keys and number values

    A [Map] iterates in insertion order, and [set] on a key already present
    keeps the key's position: an association list, updated in place. *)

Module JsMap.

Definition t : Type := list (Z * Z).

Definition empty : t := [].

Fixpoint get (m : t) (k : Z) : option Z :=
  match m with
  | [] => None
  | (k', v) :: m' => if decide (k' = k) then Some v else get m' k
  end.

Fixpoint set (m : t) (k v : Z) : t :=
  match m with
  | [] => [(k, v)]
  | (k', v') :: m' =>
      if decide (k' = k) then (k', v) :: m' else (k', v') :: set m' k v
  end.

Definition keys (m : t) : list Z := m.*1.

Definition values (m : t) : list Z := m.*2.

End JsMap.

(** [x || 0] where [x] is the outcome of [Map.get]: [undefined] and [0] are
    falsy, every other number is kept. *)
Definition or_zero (x : option Z) : Z :=
  match x with
  | Some c => if decide (c = 0) then 0 else c
  | None => 0
  end.

(** ** JavaScript [Set] of numbers: [new Set(dice)], [has] and [size] *)

Module JsSet.

Definition of_array (dice : list Z) : gset Z := list_to_set dice.

Definition has (d : gset Z) (x : Z) : bool := bool_decide (x ∈ d).

Definition size (d : gset Z) : Z := Z.of_nat (size d).

End JsSet.

(** ** Array methods used by the rules *)

Module JsArray.

(** [a.some(p)] *)
Definition some (p : Z → bool) (a : list Z) : bool := existsb p a.

(** [a.includes(x)] *)
Definition includes (a : list Z) (x : Z) : bool := existsb (Z.eqb x) a.

(** [a.reduce(f)] without an initial value: throws on the empty array,
    otherwise folds from the first element over the rest. *)
Definition reduce (f : Z → Z → Z) (a : list Z) : result Z :=
  match a with
  | [] => TypeError
  | x :: xs => Ok (foldl f x xs)
  end.

(** [a[0] === x]: [a[0]] is [undefined] on the empty array. *)
Definition first_is (a : list Z) (x : Z) : bool :=
  match a !! 0%nat with
  | Some y => Z.eqb y x
  | None => false
  end.

End JsArray.

(** ** class [Rule]: the helpers shared by the rules *)

Module Rule.

(** [sum(dice)]: sum of all dice. *)
Definition sum (dice : list Z) : result Z :=
  JsArray.reduce (λ prev curr, prev + curr) dice.

(** The [Map] built by the loop of [freq]. *)
Definition freq_step (freqs : JsMap.t) (d : Z) : JsMap.t :=
  JsMap.set freqs d (or_zero (JsMap.get freqs d) + 1).

Definition freq_map (dice : list Z) : JsMap.t :=
  foldl freq_step JsMap.empty dice.

(** [freq(dice)]: frequencies of dice values, in order of first
    occurrence of the value. *)
Definition freq (dice : list Z) : list Z :=
  JsMap.values (freq_map dice).

(** [count(dice, val)]: number of times [val] appears in [dice]. *)
Definition count (dice : list Z) (val : Z) : Z :=
  Z.of_nat (length (filter (λ d, d = val) dice)).

End Rule.

(** ** The rule classes

    The constructor of [Rule] copies the properties of [params] onto the
    instance.  Each class reads its own parameter: [val] for
    [TotalOneNumber], [count] for [SumDistro] (an own property, which hides
    the inherited [count] method), [score] for the four flat awards. *)

Inductive rule : Type :=
  | TotalOneNumber (val : Z) (description : string)
  | SumDistro (count : Z) (description : string)
  | FullHouse (score : Z) (description : string)
  | SmallStraight (score : Z) (description : string)
  | LargeStraight (score : Z) (description : string)
  | Yahtzee (score : Z) (description : string).

Definition description (r : rule) : string :=
  match r with
  | TotalOneNumber _ s | SumDistro _ s | FullHouse _ s
  | SmallStraight _ s | LargeStraight _ s | Yahtzee _ s => s
  end.

(** [evalRoll] of each class. *)
Definition evalRoll (this : rule) (dice : list Z) : result Z :=
  match this with
  | TotalOneNumber val _ =>
      Ok (val * Rule.count dice val)
  | SumDistro count _ =>
      if JsArray.some (λ c, count <=? c) (Rule.freq dice)
      then Rule.sum dice
      else Ok 0
  | FullHouse score _ =>
      let freqs := Rule.freq dice in
      if JsArray.includes freqs 2 && JsArray.includes freqs 3
      then Ok score
      else Ok 0
  | SmallStraight score _ =>
      let d := JsSet.of_array dice in
      if JsSet.has d 2 && JsSet.has d 3 && JsSet.has d 4
         && (JsSet.has d 1 || JsSet.has d 5)
      then Ok score
      else if JsSet.has d 3 && JsSet.has d 4 && JsSet.has d 5
              && (JsSet.has d 2 || JsSet.has d 6)
      then Ok score
      else Ok 0
  | LargeStraight score _ =>
      let d := JsSet.of_array dice in
      if (JsSet.size d =? 5) && (negb (JsSet.has d 1) || negb (JsSet.has d 6))
      then Ok score
      else Ok 0
  | Yahtzee score _ =>
      if JsArray.first_is (Rule.freq dice) 5 then Ok score else Ok 0
  end.

(** ** The catalog *)

Definition ones := TotalOneNumber 1 "1 point per 1".
Definition twos := TotalOneNumber 2 "2 points per 2".
Definition threes := TotalOneNumber 3 "3 points per 3".
Definition fours := TotalOneNumber 4 "4 points per 4".
Definition fives := TotalOneNumber 5 "5 points per 5".
Definition sixes := TotalOneNumber 6 "6 points per 6".

Definition threeOfKind := SumDistro 3 "sum all dice if 3 are the same".
Definition fourOfKind := SumDistro 4 "sum all dice if 4 are the same".

Definition fullHouse := FullHouse 25 "25 points for a full house".

Definition smallStraight := SmallStraight 30 "30 points for a small straight".
Definition largeStraight := LargeStraight 40 "40 points for a large straight".

Definition yahtzee := Yahtzee 50 "50 points for yahtzee".

Definition chance := SumDistro 0 "sum of all dice".

(** The exported rules. *)
Definition catalog : list rule :=
  [ ones; twos; threes; fours; fives; sixes; threeOfKind; fourOfKind;
    fullHouse; smallStraight; largeStraight; yahtzee; chance ].

(** The per-face rules, each with the face value it is bound to. *)
Definition face_rules : list (Z * rule) :=
  [ (1, ones); (2, twos); (3, threes); (4, fours); (5, fives); (6, sixes) ].

(** The of-a-kind rules, each with the repeat count it requires. *)
Definition kind_rules : list (Z * rule) :=
  [ (3, threeOfKind); (4, fourOfKind) ].

(** ** Dice hands and the notions the properties are stated with *)

(** A hand: exactly five dice, each showing 1 to 6. *)
Definition valid_hand (hand : list Z) : Prop :=
  length hand = 5%nat ∧ Forall (λ d, 1 ≤ d ≤ 6) hand.

(** Number of dice of [hand] equal to [v]. *)
Definition countOf (hand : list Z) (v : Z) : Z :=
  Z.of_nat (count_occ Z.eq_dec hand v).

(** Sum of the dice of [hand]. *)
Definition total (hand : list Z) : Z := foldr Z.add 0 hand.

(** The distinct face values of [hand]. *)
Definition faces (hand : list Z) : list Z := remove_dups hand.

(** The frequency multiset of [hand]: one repeat count per distinct face
    value present. *)
Definition frequencies (hand : list Z) : list Z :=
  (λ v, countOf hand v) <$> faces hand.

(** Two lists hold the same set of values. *)
Definition same_values (l1 l2 : list Z) : Prop := ∀ x, x ∈ l1 ↔ x ∈ l2.

(** A set of faces holds a run of four: 2, 3, 4 with 1 or 5, or 3, 4, 5 with
    2 or 6. *)
Definition small_run (F : list Z) : Prop :=
  (2 ∈ F ∧ 3 ∈ F ∧ 4 ∈ F ∧ (1 ∈ F ∨ 5 ∈ F)) ∨
  (3 ∈ F ∧ 4 ∈ F ∧ 5 ∈ F ∧ (2 ∈ F ∨ 6 ∈ F)).

(** Five distinct faces, of which 1 or 6 is missing. *)
Definition large_run (F : list Z) : Prop :=
  length F = 5%nat ∧ (1 ∉ F ∨ 6 ∉ F).

(** A pair and a triple among the repeat counts. *)
Definition pair_and_triple (hand : list Z) : Prop :=
  2 ∈ frequencies hand ∧ 3 ∈ frequencies hand.

(** The parameter a rule scores with is not negative. *)
Definition award_nonneg (r : rule) : Prop :=
  match r with
  | TotalOneNumber val _ => 0 ≤ val
  | SumDistro _ _ => True
  | FullHouse score _ | SmallStraight score _
  | LargeStraight score _ | Yahtzee score _ => 0 ≤ score
  end.

(** The values of [dice], each once, in order of first occurrence. *)
Definition first_seen (dice : list Z) : list Z :=
  reverse (remove_dups (reverse dice)).

(** All arrays of [n] dice showing 1 to 6. *)
Fixpoint arrays (n : nat) : list (list Z) :=
  match n with
  | O => [[]]
  | S n => d ← [1; 2; 3; 4; 5; 6]; (λ ds, d :: ds) <$> arrays n
  end.

(** Completions of a call can be compared. *)
Global Instance result_eq_dec : EqDecision (result Z).
Proof. solve_decision. Defined.

(** ** Sample evaluations *)

Example ones_all_ones : evalRoll ones [1; 1; 1; 1; 1] = Ok 5.
Proof. reflexivity. Qed.

Example sixes_all_ones : evalRoll sixes [1; 1; 1; 1; 1] = Ok 0.
Proof. reflexivity. Qed.

Example threeOfKind_hit : evalRoll threeOfKind [2; 2; 2; 5; 6] = Ok 17.
Proof. reflexivity. Qed.

Example threeOfKind_miss : evalRoll threeOfKind [1; 2; 3; 4; 5] = Ok 0.
Proof. reflexivity. Qed.

Example chance_sample : evalRoll chance [1; 2; 3; 4; 5] = Ok 15.
Proof. reflexivity. Qed.

Example fullHouse_hit : evalRoll fullHouse [2; 2; 3; 3; 3] = Ok 25.
Proof. reflexivity. Qed.

Example smallStraight_hit : evalRoll smallStraight [1; 2; 3; 4; 6] = Ok 30.
Proof. vm_compute. reflexivity. Qed.

Example smallStraight_miss : evalRoll smallStraight [1; 1; 2; 3; 6] = Ok 0.
Proof. vm_compute. reflexivity. Qed.

Example largeStraight_high : evalRoll largeStraight [2; 3; 4; 5; 6] = Ok 40.
Proof. vm_compute. reflexivity. Qed.

Example largeStraight_low : evalRoll largeStraight [1; 2; 3; 4; 5] = Ok 40.
Proof. vm_compute. reflexivity. Qed.

Example largeStraight_miss : evalRoll largeStraight [1; 2; 3; 4; 4] = Ok 0.
Proof. vm_compute. reflexivity. Qed.

Example yahtzee_hit : evalRoll yahtzee [4; 4; 4; 4; 4] = Ok 50.
Proof. reflexivity. Qed.

Example yahtzee_miss : evalRoll yahtzee [4; 4; 4; 4; 5] = Ok 0.
Proof. reflexivity. Qed.

Example freq_sample : Rule.freq [2; 5; 2; 2; 5] = [3; 2].
Proof. reflexivity. Qed.

(** Outside the hands: the sum of no dice throws, but [SumDistro] never asks
    for it, since no frequency meets the threshold. *)
Example sum_empty : Rule.sum [] = TypeError.
Proof. reflexivity. Qed.

Example chance_empty : evalRoll chance [] = Ok 0.
Proof. reflexivity. Qed.

(** ** Facts about the insertion-ordered map *)

Section JsMapFacts.

Implicit Types (m : JsMap.t) (k v : Z).

Lemma get_set m k v k' :
  JsMap.get (JsMap.set m k v) k' =
  if decide (k = k') then Some v else JsMap.get m k'.
Proof.
  induction m as [|[k0 v0] m IH]; simpl.
  - repeat case_decide; congruence.
  - destruct (decide (k0 = k)) as [->|Hne]; simpl.
    + repeat case_decide; congruence.
    + rewrite IH. repeat case_decide; congruence.
Qed.

Lemma keys_set m k v :
  JsMap.keys (JsMap.set m k v) =
  if decide (k ∈ JsMap.keys m) then JsMap.keys m else JsMap.keys m ++ [k].
Proof.
  unfold JsMap.keys. induction m as [|[k0 v0] m IH].
  - rewrite decide_False; [done | apply not_elem_of_nil].
  - cbn [JsMap.set]. destruct (decide (k0 = k)) as [->|Hne].
    + rewrite decide_True; [done | apply list_elem_of_here].
    + rewrite !fmap_cons, IH. destruct (decide (k ∈ m.*1)) as [Hin|Hout].
      * rewrite decide_True; [done | by apply list_elem_of_further].
      * rewrite decide_False; [done|].
        intros [?|?]%elem_of_cons; simpl in *; congruence.
Qed.

Lemma get_is_Some m k : is_Some (JsMap.get m k) ↔ k ∈ JsMap.keys m.
Proof.
  unfold JsMap.keys. induction m as [|[k0 v0] m IH]; simpl.
  - split; [by intros [? ?] | by intros ?%elem_of_nil].
  - rewrite elem_of_cons. case_decide as H.
    + split; [by left | by eexists].
    + rewrite IH. split; [by right | intros [?|?]; [congruence | done]].
Qed.

Lemma get_Some_elem_of m k v : JsMap.get m k = Some v → (k, v) ∈ m.
Proof.
  induction m as [|[k0 v0] m IH]; simpl; [done|].
  case_decide as H.
  - intros [= ->]. subst. left.
  - intros ?. right. auto.
Qed.

Lemma elem_of_get_Some m k v :
  NoDup (JsMap.keys m) → (k, v) ∈ m → JsMap.get m k = Some v.
Proof.
  unfold JsMap.keys. induction m as [|[k0 v0] m IH]; simpl.
  - by intros _ ?%elem_of_nil.
  - intros [Hk0 Hnd]%NoDup_cons [Heq|Hin]%elem_of_cons.
    + injection Heq as -> ->. by rewrite decide_True.
    + rewrite decide_False; [by apply IH|].
      intros ->. apply Hk0. apply list_elem_of_fmap. by exists (k, v).
Qed.

Lemma keys_set_NoDup m k v :
  NoDup (JsMap.keys m) → NoDup (JsMap.keys (JsMap.set m k v)).
Proof.
  intros Hnd. rewrite keys_set. case_decide as H; [done|].
  apply NoDup_app. split_and!; [done| |apply NoDup_singleton].
  intros x Hx ->%list_elem_of_singleton. done.
Qed.

End JsMapFacts.

(** ** Facts about the helpers of [Rule] *)

Section RuleFacts.

Implicit Types (dice hand : list Z) (m : JsMap.t) (k v d : Z).

Lemma or_zero_default (x : option Z) : or_zero x = default 0 x.
Proof. destruct x as [c|]; simpl; [by case_decide | done]. Qed.

(** *** [count] *)

Lemma count_nil v : Rule.count [] v = 0.
Proof. done. Qed.

Lemma count_cons d dice v :
  Rule.count (d :: dice) v =
  (if decide (d = v) then 1 else 0) + Rule.count dice v.
Proof.
  unfold Rule.count. rewrite filter_cons.
  case_decide; simpl length; lia.
Qed.

Lemma count_countOf dice v : Rule.count dice v = countOf dice v.
Proof.
  unfold countOf. induction dice as [|d dice IH]; [done|].
  rewrite count_cons, IH. simpl count_occ.
  destruct (Z.eq_dec d v); case_decide; try congruence; lia.
Qed.

Lemma count_nonneg dice v : 0 ≤ Rule.count dice v.
Proof. unfold Rule.count. lia. Qed.

Lemma count_le_length dice v : Rule.count dice v ≤ Z.of_nat (length dice).
Proof. unfold Rule.count. pose proof (length_filter (λ d, d = v) dice). lia. Qed.

Lemma count_pos_elem_of dice v : 0 < Rule.count dice v ↔ v ∈ dice.
Proof.
  induction dice as [|d dice IH].
  - rewrite count_nil, elem_of_nil. lia.
  - rewrite count_cons, elem_of_cons. pose proof (count_nonneg dice v).
    case_decide as Hd; [subst d|].
    + split; [by left | lia].
    + rewrite <- IH. split; [intros; right; lia | intros [?|?]; [congruence | lia]].
Qed.

Lemma count_perm dice dice' v :
  dice ≡ₚ dice' → Rule.count dice v = Rule.count dice' v.
Proof. unfold Rule.count. by intros ->. Qed.

(** A value fills the whole array exactly when every entry is that value. *)
Lemma count_full dice v :
  Rule.count dice v = Z.of_nat (length dice) ↔ Forall (λ d, d = v) dice.
Proof.
  induction dice as [|d dice IH]; [by split|].
  rewrite count_cons, Forall_cons, <- IH. simpl length.
  pose proof (count_le_length dice v).
  case_decide; split; intros; try split; try lia; tauto.
Qed.

(** *** [sum] *)

Lemma foldl_add_total dice a : foldl Z.add a dice = a + total dice.
Proof.
  unfold total. revert a.
  induction dice as [|d dice IH]; intros a; simpl; [lia|].
  rewrite IH. lia.
Qed.

Lemma sum_total d dice : Rule.sum (d :: dice) = Ok (total (d :: dice)).
Proof.
  unfold Rule.sum. simpl JsArray.reduce. f_equal.
  change (λ prev curr : Z, prev + curr) with Z.add.
  by rewrite foldl_add_total.
Qed.

Lemma sum_nonempty dice : dice ≠ [] → Rule.sum dice = Ok (total dice).
Proof. destruct dice; [done | intros _; apply sum_total]. Qed.

Lemma total_perm dice dice' : dice ≡ₚ dice' → total dice = total dice'.
Proof.
  unfold total. induction 1; simpl; lia.
Qed.

Lemma total_lower dice :
  Forall (λ d, 1 ≤ d) dice → Z.of_nat (length dice) ≤ total dice.
Proof.
  unfold total. induction 1; simpl foldr; simpl length; lia.
Qed.

End RuleFacts.

(** ** The frequency table

    After the loop of [freq] the map holds, for every value of the array in
    order of first occurrence, the number of its occurrences. *)

Section FreqFacts.

Implicit Types (dice hand : list Z) (m : JsMap.t) (k v d c : Z).

Lemma freq_step_get m d k :
  JsMap.get (Rule.freq_step m d) k =
  if decide (d = k) then Some (or_zero (JsMap.get m d) + 1)
  else JsMap.get m k.
Proof. apply get_set. Qed.

Lemma freq_loop_get dice m k :
  or_zero (JsMap.get (foldl Rule.freq_step m dice) k) =
  or_zero (JsMap.get m k) + Rule.count dice k.
Proof.
  revert m. induction dice as [|d dice IH]; intros m.
  - rewrite count_nil. simpl. lia.
  - cbn [foldl]. rewrite IH, freq_step_get, count_cons.
    case_decide as Hd; [subst d|]; rewrite ?or_zero_default; simpl; lia.
Qed.

Lemma freq_loop_keys dice m k :
  k ∈ JsMap.keys (foldl Rule.freq_step m dice) ↔ k ∈ JsMap.keys m ∨ k ∈ dice.
Proof.
  revert m. induction dice as [|d dice IH]; intros m.
  - rewrite elem_of_nil. simpl. tauto.
  - cbn [foldl]. rewrite IH. unfold Rule.freq_step. rewrite keys_set.
    rewrite elem_of_cons. case_decide as Hd.
    + split; [tauto|]. intros [?|[->|?]]; auto.
    + rewrite elem_of_app, list_elem_of_singleton. tauto.
Qed.

Lemma freq_loop_NoDup dice m :
  NoDup (JsMap.keys m) → NoDup (JsMap.keys (foldl Rule.freq_step m dice)).
Proof.
  revert m. induction dice as [|d dice IH]; intros m Hm; [done|].
  cbn [foldl]. apply IH. by apply keys_set_NoDup.
Qed.

(** The first key never moves. *)
Lemma freq_loop_head dice m k0 v0 m' :
  m = (k0, v0) :: m' →
  ∃ v m'', foldl Rule.freq_step m dice = (k0, v) :: m''.
Proof.
  revert m v0 m'. induction dice as [|d dice IH]; intros m v0 m' ->.
  - by eexists _, _.
  - cbn [foldl]. unfold Rule.freq_step at 2. cbn [JsMap.set].
    case_decide; eapply IH; reflexivity.
Qed.

Lemma freq_map_NoDup dice : NoDup (JsMap.keys (Rule.freq_map dice)).
Proof. apply freq_loop_NoDup. constructor. Qed.

Lemma freq_map_get dice k :
  JsMap.get (Rule.freq_map dice) k =
  if decide (k ∈ dice) then Some (Rule.count dice k) else None.
Proof.
  pose proof (freq_loop_get dice JsMap.empty k) as Hget.
  pose proof (freq_loop_keys dice JsMap.empty k) as Hkeys.
  rewrite <- get_is_Some in Hkeys. fold (Rule.freq_map dice) in Hget, Hkeys.
  simpl in Hget, Hkeys. rewrite elem_of_nil in Hkeys.
  case_decide as Hin.
  - destruct (JsMap.get (Rule.freq_map dice) k) as [c|] eqn:E.
    + rewrite or_zero_default in Hget. simpl in Hget. by subst c.
    + exfalso. eapply is_Some_None. apply Hkeys. by right.
  - apply eq_None_not_Some. intros Hs. apply Hkeys in Hs. tauto.
Qed.

(** The entries of [freq]: the occurrence counts of the values present. *)
Lemma elem_of_freq dice c :
  c ∈ Rule.freq dice ↔ ∃ k, k ∈ dice ∧ Rule.count dice k = c.
Proof.
  unfold Rule.freq, JsMap.values. rewrite list_elem_of_fmap. split.
  - intros [[k c'] [-> Hin]]. simpl.
    apply elem_of_get_Some in Hin; [|apply freq_map_NoDup].
    rewrite freq_map_get in Hin. case_decide; [|done].
    exists k. split; [done | congruence].
  - intros (k & Hin & <-). exists (k, Rule.count dice k). split; [done|].
    apply get_Some_elem_of. rewrite freq_map_get. by rewrite decide_True.
Qed.

(** The first entry of [freq] counts the first element of the array. *)
Lemma freq_first dice :
  Rule.freq dice !! 0%nat = (λ d, Rule.count dice d) <$> head dice.
Proof.
  destruct dice as [|d dice]; [done|].
  pose proof (freq_map_get (d :: dice) d) as Hget.
  rewrite decide_True in Hget by apply list_elem_of_here.
  unfold Rule.freq, JsMap.values.
  destruct (freq_loop_head dice (Rule.freq_step JsMap.empty d) d 1 [] eq_refl)
    as (v & m'' & Hloop).
  unfold Rule.freq_map in *. cbn [foldl] in *. rewrite Hloop in *.
  simpl in Hget. rewrite decide_True in Hget by done.
  simpl. congruence.
Qed.

End FreqFacts.

(** ** Array tests as propositions *)

Section ArrayFacts.

Implicit Types (a : list Z) (x c : Z).

Lemma some_true (p : Z → bool) a :
  JsArray.some p a = true ↔ ∃ c, c ∈ a ∧ p c = true.
Proof.
  unfold JsArray.some. induction a as [|y a IH]; simpl.
  - split; [done | by intros (c & ?%elem_of_nil & _)].
  - rewrite orb_true_iff, IH. split.
    + intros [Hy|(c & Hc & Hp)].
      * exists y. split; [apply list_elem_of_here | done].
      * exists c. split; [by apply list_elem_of_further | done].
    + intros (c & [->|Hc]%elem_of_cons & Hp); [by left|].
      right. by exists c.
Qed.

Lemma includes_true a x : JsArray.includes a x = true ↔ x ∈ a.
Proof.
  unfold JsArray.includes. fold (JsArray.some (Z.eqb x) a).
  rewrite some_true. split.
  - by intros (c & Hc & ->%Z.eqb_eq).
  - intros Hx. exists x. by rewrite Z.eqb_refl.
Qed.

Lemma first_is_true a x : JsArray.first_is a x = true ↔ a !! 0%nat = Some x.
Proof.
  unfold JsArray.first_is. destruct (a !! 0%nat) as [y|]; [|done].
  rewrite Z.eqb_eq. split; congruence.
Qed.

(** Two boolean tests that hold in the same cases are the same test. *)
Lemma bool_ext (b1 b2 : bool) : (b1 = true ↔ b2 = true) → b1 = b2.
Proof. destruct b1, b2; intuition congruence. Qed.

End ArrayFacts.

(** ** The set of values of a hand *)

Section SetFacts.

Implicit Types (dice hand : list Z) (x : Z).

Lemma has_true dice x : JsSet.has (JsSet.of_array dice) x = true ↔ x ∈ dice.
Proof.
  unfold JsSet.has, JsSet.of_array.
  by rewrite bool_decide_eq_true, elem_of_list_to_set.
Qed.

Lemma has_faces dice x :
  JsSet.has (JsSet.of_array dice) x = true ↔ x ∈ faces dice.
Proof. unfold faces. by rewrite has_true, elem_of_remove_dups. Qed.

Lemma of_array_perm dice dice' :
  dice ≡ₚ dice' → JsSet.of_array dice = JsSet.of_array dice'.
Proof. unfold JsSet.of_array. by intros ->. Qed.

Lemma size_faces dice :
  JsSet.size (JsSet.of_array dice) = Z.of_nat (length (faces dice)).
Proof.
  unfold JsSet.size, JsSet.of_array, faces. f_equal.
  rewrite <- (size_list_to_set (C:=gset Z) (remove_dups dice))
    by apply NoDup_remove_dups.
  f_equal. apply set_eq. intros x.
  by rewrite !elem_of_list_to_set, elem_of_remove_dups.
Qed.

End SetFacts.

(** ** Hands *)

Section HandFacts.

Implicit Types (dice hand : list Z) (v d : Z).

Lemma valid_hand_nonempty hand : valid_hand hand → hand ≠ [].
Proof. intros [Hlen _] ->. done. Qed.

Lemma valid_hand_perm hand hand' :
  hand ≡ₚ hand' → valid_hand hand → valid_hand hand'.
Proof. intros Hp [Hlen Hall]. split; by rewrite <- Hp. Qed.

Lemma valid_hand_total hand : valid_hand hand → 5 ≤ total hand.
Proof.
  intros [Hlen Hall]. etrans; [|apply total_lower].
  - rewrite Hlen. done.
  - eapply Forall_impl; [done|]. simpl. lia.
Qed.

Lemma catalog_award_nonneg : Forall award_nonneg catalog.
Proof. unfold catalog. repeat constructor; simpl; lia. Qed.

End HandFacts.

(** ** Every rule returns a score *)

Section Totality.

Implicit Types (dice hand : list Z) (r : rule) (n : Z).

Lemma total_nonneg dice : Forall (λ d, 0 ≤ d) dice → 0 ≤ total dice.
Proof. unfold total. induction 1; simpl; lia. Qed.

Lemma evalRoll_defined r dice : dice ≠ [] → ∃ n, evalRoll r dice = Ok n.
Proof.
  intros Hne. destruct r; simpl.
  - eauto.
  - rewrite sum_nonempty by done. case_match; eauto.
  - case_match; eauto.
  - repeat case_match; eauto.
  - case_match; eauto.
  - case_match; eauto.
Qed.

Lemma evalRoll_nonneg r dice n :
  award_nonneg r → Forall (λ d, 0 ≤ d) dice →
  evalRoll r dice = Ok n → 0 ≤ n.
Proof.
  intros Hr Hdice. destruct r; simpl in *.
  - intros [= <-]. pose proof (count_nonneg dice val). nia.
  - case_match; [|intros [= <-]; lia].
    destruct dice as [|d dice]; [done|].
    rewrite sum_total. intros [= <-]. by apply (total_nonneg (d :: dice)).
  - case_match; intros [= <-]; lia.
  - repeat case_match; intros [= <-]; lia.
  - case_match; intros [= <-]; lia.
  - case_match; intros [= <-]; lia.
Qed.

End Totality.

(** ** The order of the dice *)

Section Order.

Implicit Types (dice hand : list Z) (r : rule) (c v d : Z).

Lemma elem_of_freq_perm dice dice' c :
  dice ≡ₚ dice' → c ∈ Rule.freq dice ↔ c ∈ Rule.freq dice'.
Proof.
  intros Hp. rewrite !elem_of_freq.
  split; intros (k & Hk & Hc); exists k; split.
  - by rewrite <- Hp.
  - by rewrite <- (count_perm dice dice').
  - by rewrite Hp.
  - by rewrite (count_perm dice dice').
Qed.

Lemma freq_some_perm (p : Z → bool) dice dice' :
  dice ≡ₚ dice' →
  JsArray.some p (Rule.freq dice) = JsArray.some p (Rule.freq dice').
Proof.
  intros Hp. apply bool_ext. rewrite !some_true.
  split; intros (c & Hc & Hpc); exists c; split; try done.
  - by apply (elem_of_freq_perm dice dice').
  - by apply (elem_of_freq_perm dice dice').
Qed.

Lemma freq_includes_perm dice dice' c :
  dice ≡ₚ dice' →
  JsArray.includes (Rule.freq dice) c = JsArray.includes (Rule.freq dice') c.
Proof.
  intros Hp. apply bool_ext. rewrite !includes_true.
  by apply elem_of_freq_perm.
Qed.

Lemma sum_perm dice dice' : dice ≡ₚ dice' → Rule.sum dice = Rule.sum dice'.
Proof.
  intros Hp. destruct dice as [|d dice].
  - by apply Permutation_nil_l in Hp as ->.
  - rewrite sum_total, (sum_nonempty dice').
    + f_equal. by apply total_perm.
    + intros ->. by apply Permutation_nil_r in Hp.
Qed.

(** The test of [Yahtzee] looks at the count of the first die only.  When
    the array has five entries, that count is 5 exactly when all dice are
    the same. *)
Lemma first_freq_all_same dice :
  length dice = 5%nat →
  JsArray.first_is (Rule.freq dice) 5 = true ↔
  ∃ v, Forall (λ d, d = v) dice.
Proof.
  intros Hlen. rewrite first_is_true, freq_first.
  destruct dice as [|d dice]; [done|]. simpl head. simpl fmap. split.
  - intros [= Hc]. exists d. apply count_full. rewrite Hc, Hlen. done.
  - intros [v Hall]. f_equal.
    assert (d = v) as -> by (by inversion Hall).
    apply count_full in Hall. rewrite Hall, Hlen. done.
Qed.

Lemma first_freq_perm dice dice' :
  length dice = 5%nat → dice ≡ₚ dice' →
  JsArray.first_is (Rule.freq dice) 5 = JsArray.first_is (Rule.freq dice') 5.
Proof.
  intros Hlen Hp. apply bool_ext.
  rewrite !first_freq_all_same by (by rewrite <- ?Hp).
  split; intros [v Hall]; exists v; [by rewrite <- Hp | by rewrite Hp].
Qed.

(** No rule depends on the order of five dice. *)
Lemma evalRoll_perm_five r dice dice' :
  length dice = 5%nat → dice ≡ₚ dice' → evalRoll r dice = evalRoll r dice'.
Proof.
  intros Hlen Hp. destruct r; simpl.
  - by rewrite (count_perm dice dice').
  - by rewrite (freq_some_perm _ dice dice'), (sum_perm dice dice').
  - by rewrite !(freq_includes_perm dice dice').
  - by rewrite (of_array_perm dice dice').
  - by rewrite (of_array_perm dice dice').
  - by rewrite (first_freq_perm dice dice').
Qed.

End Order.

(** ** The tests of the rules, in terms of the hand *)

Section Tests.

Implicit Types (dice hand : list Z) (k v d : Z).

Lemma distro_test dice k :
  JsArray.some (λ c, k <=? c) (Rule.freq dice) = true ↔
  ∃ v, v ∈ dice ∧ k ≤ countOf dice v.
Proof.
  rewrite some_true. split.
  - intros (c & (v & Hv & <-)%elem_of_freq & Hk%Z.leb_le).
    exists v. by rewrite <- count_countOf.
  - intros (v & Hv & Hk). exists (Rule.count dice v). split.
    + apply elem_of_freq. by exists v.
    + apply Z.leb_le. by rewrite count_countOf.
Qed.

Lemma countOf_pos_elem_of dice v : 0 < countOf dice v ↔ v ∈ dice.
Proof. rewrite <- count_countOf. apply count_pos_elem_of. Qed.

Lemma distro_test_pos dice k :
  0 < k →
  JsArray.some (λ c, k <=? c) (Rule.freq dice) = true ↔
  ∃ v, k ≤ countOf dice v.
Proof.
  intros Hk. rewrite distro_test. split.
  - intros (v & _ & Hv). by exists v.
  - intros (v & Hv). exists v. split; [|done].
    apply countOf_pos_elem_of. lia.
Qed.

Lemma distro_test_zero dice :
  dice ≠ [] → JsArray.some (λ c, 0 <=? c) (Rule.freq dice) = true.
Proof.
  intros Hne. apply distro_test. destruct dice as [|d dice]; [done|].
  exists d. split; [apply list_elem_of_here|].
  rewrite <- count_countOf. apply count_nonneg.
Qed.

Lemma elem_of_frequencies dice k :
  k ∈ frequencies dice ↔ ∃ v, v ∈ dice ∧ countOf dice v = k.
Proof.
  unfold frequencies, faces. rewrite list_elem_of_fmap.
  setoid_rewrite elem_of_remove_dups. split.
  - intros (v & -> & Hv). by exists v.
  - intros (v & Hv & <-). by exists v.
Qed.

End Tests.

(** ** [freq] computes the frequency multiset *)

Section FreqRefinement.

Implicit Types (dice hand : list Z) (m : JsMap.t) (v : Z).

Lemma values_by_key m (f : Z → Z) :
  (∀ k c, (k, c) ∈ m → c = f k) → JsMap.values m = f <$> JsMap.keys m.
Proof.
  unfold JsMap.values, JsMap.keys.
  induction m as [|[k c] m IH]; intros Hm; [done|].
  rewrite !fmap_cons. simpl. f_equal.
  - apply Hm. apply list_elem_of_here.
  - apply IH. intros k' c' Hin. apply Hm. by apply list_elem_of_further.
Qed.

Lemma freq_by_key dice :
  Rule.freq dice = (λ v, countOf dice v) <$> JsMap.keys (Rule.freq_map dice).
Proof.
  unfold Rule.freq. apply values_by_key. intros k c Hin.
  apply elem_of_get_Some in Hin; [|apply freq_map_NoDup].
  rewrite freq_map_get in Hin. case_decide; [|done].
  rewrite <- count_countOf. congruence.
Qed.

Lemma freq_keys_faces dice : JsMap.keys (Rule.freq_map dice) ≡ₚ faces dice.
Proof.
  apply NoDup_Permutation.
  - apply freq_map_NoDup.
  - apply NoDup_remove_dups.
  - intros k. unfold faces, Rule.freq_map.
    rewrite freq_loop_keys, elem_of_remove_dups, elem_of_nil. tauto.
Qed.

(** The array [freq] returns is the frequency multiset, in some order. *)
Lemma freq_frequencies dice : Rule.freq dice ≡ₚ frequencies dice.
Proof.
  rewrite freq_by_key. unfold frequencies. by rewrite freq_keys_faces.
Qed.

Lemma faces_all_same hand v :
  hand ≠ [] → Forall (λ d, d = v) hand → faces hand = [v].
Proof.
  unfold faces. induction hand as [|d hand IH]; [done|].
  intros _ [-> Hall]%Forall_cons. cbn [remove_dups].
  case_decide as Hin.
  - apply IH; [|done]. intros ->. by apply elem_of_nil in Hin.
  - destruct hand as [|d' hand]; [done|]. destruct Hin.
    apply Forall_cons in Hall as [-> _]. apply list_elem_of_here.
Qed.

Lemma frequencies_all_same hand :
  length hand = 5%nat →
  frequencies hand = [5] ↔ ∃ v, Forall (λ d, d = v) hand.
Proof.
  intros Hlen. split.
  - intros Hf. assert (5 ∈ frequencies hand) as Hin.
    { rewrite Hf. apply list_elem_of_here. }
    apply elem_of_frequencies in Hin as (v & _ & Hv). exists v.
    apply count_full. rewrite count_countOf, Hv, Hlen. done.
  - intros [v Hall]. unfold frequencies.
    rewrite (faces_all_same hand v); [|by destruct hand|done].
    simpl. f_equal. apply count_full in Hall.
    rewrite <- count_countOf, Hall, Hlen. done.
Qed.

End FreqRefinement.

(** ** The straights *)

Section Straights.

Implicit Types (dice hand : list Z) (x : Z).

Lemma has_reflect dice x :
  reflect (x ∈ faces dice) (JsSet.has (JsSet.of_array dice) x).
Proof.
  destruct (JsSet.has (JsSet.of_array dice) x) eqn:E; constructor.
  - by apply has_faces.
  - rewrite <- has_faces. congruence.
Qed.

Lemma large_test dice :
  (JsSet.size (JsSet.of_array dice) =? 5)
  && (negb (JsSet.has (JsSet.of_array dice) 1)
      || negb (JsSet.has (JsSet.of_array dice) 6)) = true ↔
  large_run (faces dice).
Proof.
  unfold large_run. rewrite size_faces, andb_true_iff, Z.eqb_eq, orb_true_iff.
  destruct (has_reflect dice 1), (has_reflect dice 6); simpl;
    intuition (try congruence; try lia).
Qed.

Lemma faces_bound hand x :
  valid_hand hand → x ∈ faces hand → 1 ≤ x ≤ 6.
Proof.
  intros [_ Hall] Hx. unfold faces in Hx. rewrite elem_of_remove_dups in Hx.
  rewrite Forall_forall in Hall. by apply Hall.
Qed.

Lemma faces_without_one hand :
  valid_hand hand → length (faces hand) = 5%nat → 1 ∉ faces hand →
  faces hand ≡ₚ [2; 3; 4; 5; 6].
Proof.
  intros Hhand Hlen H1. apply submseteq_length_Permutation.
  - apply NoDup_submseteq; [apply NoDup_remove_dups|].
    intros x Hx. pose proof (faces_bound hand x Hhand Hx).
    assert (x ≠ 1) by (by intros ->).
    rewrite !elem_of_cons. lia.
  - rewrite Hlen. done.
Qed.

Lemma faces_without_six hand :
  valid_hand hand → length (faces hand) = 5%nat → 6 ∉ faces hand →
  faces hand ≡ₚ [1; 2; 3; 4; 5].
Proof.
  intros Hhand Hlen H6. apply submseteq_length_Permutation.
  - apply NoDup_submseteq; [apply NoDup_remove_dups|].
    intros x Hx. pose proof (faces_bound hand x Hhand Hx).
    assert (x ≠ 6) by (by intros ->).
    rewrite !elem_of_cons. lia.
  - rewrite Hlen. done.
Qed.

Lemma same_values_perm dice (l : list Z) :
  NoDup l → same_values (faces dice) l ↔ faces dice ≡ₚ l.
Proof.
  intros Hl. split.
  - intros Hs. apply NoDup_Permutation; [apply NoDup_remove_dups|done..].
  - intros Hp x. by rewrite Hp.
Qed.

Lemma NoDup_low : NoDup [1; 2; 3; 4; 5].
Proof.
  repeat (apply NoDup_cons; split; [rewrite ?elem_of_cons, elem_of_nil; lia|]).
  apply NoDup_nil_2.
Qed.

Lemma NoDup_high : NoDup [2; 3; 4; 5; 6].
Proof.
  repeat (apply NoDup_cons; split; [rewrite ?elem_of_cons, elem_of_nil; lia|]).
  apply NoDup_nil_2.
Qed.

Lemma small_test dice :
  let d := JsSet.of_array dice in
  (JsSet.has d 2 && JsSet.has d 3 && JsSet.has d 4
   && (JsSet.has d 1 || JsSet.has d 5))
  || (JsSet.has d 3 && JsSet.has d 4 && JsSet.has d 5
      && (JsSet.has d 2 || JsSet.has d 6)) = true ↔
  small_run (faces dice).
Proof.
  unfold small_run. simpl.
  destruct (has_reflect dice 1), (has_reflect dice 2),
    (has_reflect dice 3), (has_reflect dice 4),
    (has_reflect dice 5), (has_reflect dice 6); simpl;
    intuition congruence.
Qed.

(** A run of five holds a run of four. *)
Lemma same_values_small_run (F : list Z) :
  same_values F [1; 2; 3; 4; 5] ∨ same_values F [2; 3; 4; 5; 6] →
  small_run F.
Proof.
  unfold same_values, small_run.
  intros [Hs|Hs]; left; rewrite !Hs, !elem_of_cons; lia.
Qed.

(** Five distinct faces that leave out 1 or 6 are the faces of a run. *)
Lemma large_faces hand :
  valid_hand hand →
  large_run (faces hand) ↔
  same_values (faces hand) [1; 2; 3; 4; 5] ∨
  same_values (faces hand) [2; 3; 4; 5; 6].
Proof.
  intros Hhand. unfold large_run.
  rewrite (same_values_perm _ _ NoDup_low), (same_values_perm _ _ NoDup_high).
  split.
  - intros [Hlen [H1|H6]].
    + right. by apply faces_without_one.
    + left. by apply faces_without_six.
  - intros [Hp|Hp]; rewrite Hp; (split; [done|]).
    + right. rewrite !elem_of_cons, elem_of_nil. lia.
    + left. rewrite !elem_of_cons, elem_of_nil. lia.
Qed.

End Straights.

(** ** The shape of a full house *)

Section FullHouseShape.

Implicit Types (dice hand : list Z) (a b x : Z).

Lemma count_three_le dice a b x :
  a ≠ b → x ≠ a → x ≠ b →
  Rule.count dice a + Rule.count dice b + Rule.count dice x
  ≤ Z.of_nat (length dice).
Proof.
  intros Hab Hxa Hxb. induction dice as [|d dice IH]; [done|].
  rewrite !count_cons. simpl length.
  repeat case_decide; subst; try congruence; lia.
Qed.

Lemma count_shape a b x :
  Rule.count [a; a; b; b; b] x =
  (if decide (a = x) then 2 else 0) + (if decide (b = x) then 3 else 0).
Proof. rewrite !count_cons, count_nil. repeat case_decide; lia. Qed.

(** A count of 2 and a count of 3 among five dice: a pair of one face and
    a triple of another. *)
Lemma pair_and_triple_shape hand :
  length hand = 5%nat →
  pair_and_triple hand ↔ ∃ a b, a ≠ b ∧ hand ≡ₚ [a; a; b; b; b].
Proof.
  intros Hlen. unfold pair_and_triple. rewrite !elem_of_frequencies.
  setoid_rewrite <- count_countOf. split.
  - intros [(a & _ & Ha) (b & _ & Hb)]. exists a, b.
    assert (a ≠ b) as Hab by (intros ->; lia).
    split; [done|].
    apply (Permutation_count_occ Z.eq_dec). intros x.
    apply Nat2Z.inj. fold (countOf hand x) (countOf [a; a; b; b; b] x).
    rewrite <- !count_countOf, count_shape.
    repeat case_decide; subst; try lia.
    pose proof (count_three_le hand a b x Hab) as Hle.
    pose proof (count_nonneg hand x). rewrite Hlen in Hle.
    assert (x ≠ a ∧ x ≠ b) as [? ?] by (split; congruence). lia.
  - intros (a & b & Hab & Hp). split; [exists a | exists b].
    + split; [rewrite Hp; apply list_elem_of_here|].
      rewrite (count_perm _ _ a Hp), count_shape.
      rewrite decide_True, decide_False by done. done.
    + split; [rewrite Hp; do 2 apply list_elem_of_further; apply list_elem_of_here|].
      rewrite (count_perm _ _ b Hp), count_shape.
      rewrite decide_False, decide_True by done. done.
Qed.

End FullHouseShape.

(** ** Properties of the catalog *)

(** Membership in an explicit list. *)
Ltac in_list :=
  repeat first [apply list_elem_of_here | apply list_elem_of_further].

(** A concrete list is a hand. *)
Ltac hand_ok := split; [reflexivity | repeat constructor; lia].

(** Case analysis on membership in an explicit list. *)
Ltac each_of H :=
  repeat (apply elem_of_cons in H as [H|H]; [try (injection H as -> ->)|]);
  try (by apply elem_of_nil in H).

(** C1: every rule of the catalog, on every valid hand, returns (it does not
    throw) and the score it returns is a non-negative integer. *)
Theorem catalog_total_nonneg r hand :
  r ∈ catalog → valid_hand hand →
  ∃ n : Z, evalRoll r hand = Ok n ∧ 0 ≤ n.
Proof.
  intros Hr Hhand.
  destruct (evalRoll_defined r hand (valid_hand_nonempty _ Hhand)) as [n Hn].
  exists n. split; [done|].
  eapply evalRoll_nonneg; [| |done].
  - pose proof catalog_award_nonneg as Hcat.
    rewrite Forall_forall in Hcat. by apply Hcat.
  - destruct Hhand as [_ Hall]. eapply Forall_impl; [done|]. simpl. lia.
Qed.

Lemma catalog_total_nonneg_witness :
  threeOfKind ∈ catalog ∧ valid_hand [2; 2; 2; 5; 6] ∧
  ∃ n : Z, evalRoll threeOfKind [2; 2; 2; 5; 6] = Ok n ∧ 0 ≤ n.
Proof.
  assert (Hr : threeOfKind ∈ catalog) by (unfold catalog; in_list).
  assert (Hh : valid_hand [2; 2; 2; 5; 6]) by hand_ok.
  split; [done|]. split; [done|].
  exact (catalog_total_nonneg threeOfKind [2; 2; 2; 5; 6] Hr Hh).
Defined.

(** C2: every rule of the catalog gives a valid hand and any permutation of
    it the same score; this includes [yahtzee], which reads the first
    frequency only. *)
Theorem catalog_perm_invariant r hand hand' :
  r ∈ catalog → valid_hand hand → hand ≡ₚ hand' →
  evalRoll r hand' = evalRoll r hand.
Proof.
  intros _ [Hlen _] Hp. symmetry. by apply evalRoll_perm_five.
Qed.

Lemma catalog_perm_invariant_witness :
  yahtzee ∈ catalog ∧ valid_hand [4; 5; 4; 4; 4] ∧
  [4; 5; 4; 4; 4] ≡ₚ [5; 4; 4; 4; 4] ∧
  evalRoll yahtzee [5; 4; 4; 4; 4] = evalRoll yahtzee [4; 5; 4; 4; 4].
Proof.
  assert (Hr : yahtzee ∈ catalog) by (unfold catalog; in_list).
  assert (Hh : valid_hand [4; 5; 4; 4; 4]) by hand_ok.
  assert (Hp : [4; 5; 4; 4; 4] ≡ₚ [5; 4; 4; 4; 4]) by apply perm_swap.
  split; [done|]. split; [done|]. split; [done|].
  exact (catalog_perm_invariant yahtzee _ _ Hr Hh Hp).
Defined.

(** C3: on a valid hand the per-face rule bound to [v] (ones with 1 up to
    sixes with 6) scores [v] times the number of dice showing [v]; when no
    die shows [v] the score is 0. *)
Theorem per_face_score v r hand :
  (v, r) ∈ face_rules → valid_hand hand →
  evalRoll r hand = Ok (v * countOf hand v) ∧
  (v ∉ hand → evalRoll r hand = Ok 0).
Proof.
  intros Hr _.
  assert (Heval : evalRoll r hand = Ok (v * countOf hand v)).
  { unfold face_rules in Hr. each_of Hr; simpl; by rewrite count_countOf. }
  split; [done|]. intros Hv. rewrite Heval. f_equal.
  pose proof (countOf_pos_elem_of hand v) as Hpos.
  assert (0 ≤ countOf hand v) by (unfold countOf; lia).
  destruct (decide (0 < countOf hand v)) as [Hp|Hp]; [by apply Hpos in Hp|].
  assert (countOf hand v = 0) as -> by lia. lia.
Qed.

Lemma per_face_score_witness :
  (6, sixes) ∈ face_rules ∧ valid_hand [1; 6; 3; 6; 1] ∧
  evalRoll sixes [1; 6; 3; 6; 1] = Ok (6 * countOf [1; 6; 3; 6; 1] 6) ∧
  (6 ∉ [1; 6; 3; 6; 1] → evalRoll sixes [1; 6; 3; 6; 1] = Ok 0).
Proof.
  assert (Hr : (6, sixes) ∈ face_rules) by (unfold face_rules; in_list).
  assert (Hh : valid_hand [1; 6; 3; 6; 1]) by hand_ok.
  split; [done|]. split; [done|].
  exact (per_face_score 6 sixes _ Hr Hh).
Defined.

(** C4: on a valid hand, threeOfKind (k = 3) and fourOfKind (k = 4) score
    the sum of the five dice exactly when some face value shows on at least
    [k] dice, and 0 otherwise. *)
Theorem of_kind_score k r hand :
  (k, r) ∈ kind_rules → valid_hand hand →
  (evalRoll r hand = Ok (total hand) ↔ ∃ v, k ≤ countOf hand v) ∧
  ((¬ ∃ v, k ≤ countOf hand v) → evalRoll r hand = Ok 0).
Proof.
  intros Hr Hhand.
  pose proof (valid_hand_total _ Hhand) as Htot.
  pose proof (valid_hand_nonempty _ Hhand) as Hne.
  assert (Hk : 0 < k ∧ r = SumDistro k (description r)).
  { unfold kind_rules in Hr. each_of Hr; by split. }
  destruct Hk as [Hk ->]. simpl evalRoll.
  pose proof (distro_test_pos hand k Hk) as Htest.
  destruct (JsArray.some _ (Rule.freq hand)).
  - rewrite sum_nonempty by done. split.
    + split; [intros _; by apply Htest | done].
    + intros Hno. destruct Hno. by apply Htest.
  - split; [|done]. split.
    + intros [= H0]. lia.
    + intros Hv. apply Htest in Hv. done.
Qed.

Lemma of_kind_score_witness :
  (4, fourOfKind) ∈ kind_rules ∧ valid_hand [3; 3; 6; 3; 3] ∧
  (evalRoll fourOfKind [3; 3; 6; 3; 3] = Ok (total [3; 3; 6; 3; 3]) ↔
   ∃ v, 4 ≤ countOf [3; 3; 6; 3; 3] v) ∧
  ((¬ ∃ v, 4 ≤ countOf [3; 3; 6; 3; 3] v) →
   evalRoll fourOfKind [3; 3; 6; 3; 3] = Ok 0).
Proof.
  assert (Hr : (4, fourOfKind) ∈ kind_rules) by (unfold kind_rules; in_list).
  assert (Hh : valid_hand [3; 3; 6; 3; 3]) by hand_ok.
  split; [done|]. split; [done|].
  exact (of_kind_score 4 fourOfKind _ Hr Hh).
Defined.

(** C5: on a valid hand, chance ([SumDistro] with k = 0) scores the sum of
    the dice, whatever the distribution of the face values. *)
Theorem chance_score hand :
  valid_hand hand → evalRoll chance hand = Ok (total hand).
Proof.
  intros Hne%valid_hand_nonempty. simpl.
  rewrite distro_test_zero by done. by apply sum_nonempty.
Qed.

Lemma chance_score_witness :
  valid_hand [1; 2; 3; 4; 5] ∧
  evalRoll chance [1; 2; 3; 4; 5] = Ok (total [1; 2; 3; 4; 5]).
Proof.
  assert (Hh : valid_hand [1; 2; 3; 4; 5]) by hand_ok.
  split; [done|]. exact (chance_score _ Hh).
Defined.

Lemma includes_reflect hand k :
  reflect (k ∈ frequencies hand) (JsArray.includes (Rule.freq hand) k).
Proof.
  destruct (JsArray.includes (Rule.freq hand) k) eqn:E; constructor.
  - apply includes_true in E. by rewrite <- freq_frequencies.
  - rewrite <- freq_frequencies, <- includes_true. congruence.
Qed.

(** C6: on a valid hand, fullHouse scores 25 exactly when the frequency
    multiset holds a count of 2 and a count of 3 (the five dice are a pair
    of one face and a triple of another), and 0 otherwise; the
    four-of-a-kind hand 1,1,1,1,2 scores 0. *)
Theorem fullHouse_score hand :
  valid_hand hand →
  (evalRoll fullHouse hand = Ok 25 ↔ pair_and_triple hand) ∧
  (¬ pair_and_triple hand → evalRoll fullHouse hand = Ok 0) ∧
  (pair_and_triple hand ↔ ∃ a b, a ≠ b ∧ hand ≡ₚ [a; a; b; b; b]) ∧
  evalRoll fullHouse [1; 1; 1; 1; 2] = Ok 0.
Proof.
  intros [Hlen _]. split_and!;
    [| |by apply pair_and_triple_shape|done];
    unfold pair_and_triple; simpl evalRoll;
    destruct (includes_reflect hand 2), (includes_reflect hand 3); simpl;
    intuition congruence.
Qed.

Lemma fullHouse_score_witness :
  valid_hand [3; 2; 3; 2; 3] ∧
  (evalRoll fullHouse [3; 2; 3; 2; 3] = Ok 25 ↔
   pair_and_triple [3; 2; 3; 2; 3]) ∧
  (¬ pair_and_triple [3; 2; 3; 2; 3] →
   evalRoll fullHouse [3; 2; 3; 2; 3] = Ok 0) ∧
  (pair_and_triple [3; 2; 3; 2; 3] ↔
   ∃ a b, a ≠ b ∧ [3; 2; 3; 2; 3] ≡ₚ [a; a; b; b; b]) ∧
  evalRoll fullHouse [1; 1; 1; 1; 2] = Ok 0.
Proof.
  assert (Hh : valid_hand [3; 2; 3; 2; 3]) by hand_ok.
  split; [done|]. exact (fullHouse_score _ Hh).
Defined.

Lemma smallStraight_run dice :
  (evalRoll smallStraight dice = Ok 30 ↔ small_run (faces dice)) ∧
  (¬ small_run (faces dice) → evalRoll smallStraight dice = Ok 0).
Proof.
  rewrite <- small_test. simpl.
  destruct (_ && _ && _ && (_ || _)); [by split|].
  destruct (_ && _ && _ && (_ || _)); by split.
Qed.

Lemma largeStraight_run dice :
  (evalRoll largeStraight dice = Ok 40 ↔ large_run (faces dice)) ∧
  (¬ large_run (faces dice) → evalRoll largeStraight dice = Ok 0).
Proof.
  rewrite <- large_test. simpl.
  destruct (_ && (_ || _)); by split.
Qed.

(** C7: on a valid hand, smallStraight scores 30 exactly when the distinct
    faces hold 2, 3, 4 with 1 or 5, or hold 3, 4, 5 with 2 or 6; otherwise
    it scores 0. *)
Theorem smallStraight_score hand :
  valid_hand hand →
  (evalRoll smallStraight hand = Ok 30 ↔ small_run (faces hand)) ∧
  (¬ small_run (faces hand) → evalRoll smallStraight hand = Ok 0).
Proof.
  intros _. apply smallStraight_run.
Qed.

Lemma smallStraight_score_witness :
  valid_hand [6; 4; 3; 3; 5] ∧
  (evalRoll smallStraight [6; 4; 3; 3; 5] = Ok 30 ↔
   small_run (faces [6; 4; 3; 3; 5])) ∧
  (¬ small_run (faces [6; 4; 3; 3; 5]) →
   evalRoll smallStraight [6; 4; 3; 3; 5] = Ok 0).
Proof.
  assert (Hh : valid_hand [6; 4; 3; 3; 5]) by hand_ok.
  split; [done|]. exact (smallStraight_score _ Hh).
Defined.

(** C8: on a valid hand, largeStraight scores 40 exactly when the hand has
    five distinct faces and 1 or 6 is not among them, and 0 otherwise; that
    is, exactly when the faces are 1 to 5 or 2 to 6. *)
Theorem largeStraight_score hand :
  valid_hand hand →
  (evalRoll largeStraight hand = Ok 40 ↔ large_run (faces hand)) ∧
  (¬ large_run (faces hand) → evalRoll largeStraight hand = Ok 0) ∧
  (evalRoll largeStraight hand = Ok 40 ↔
   same_values (faces hand) [1; 2; 3; 4; 5] ∨
   same_values (faces hand) [2; 3; 4; 5; 6]).
Proof.
  intros Hhand. rewrite <- (large_faces hand Hhand).
  destruct (largeStraight_run hand) as [Hrun Hzero]. by split_and!.
Qed.

Lemma largeStraight_score_witness :
  valid_hand [6; 4; 3; 2; 5] ∧
  (evalRoll largeStraight [6; 4; 3; 2; 5] = Ok 40 ↔
   large_run (faces [6; 4; 3; 2; 5])) ∧
  (¬ large_run (faces [6; 4; 3; 2; 5]) →
   evalRoll largeStraight [6; 4; 3; 2; 5] = Ok 0) ∧
  (evalRoll largeStraight [6; 4; 3; 2; 5] = Ok 40 ↔
   same_values (faces [6; 4; 3; 2; 5]) [1; 2; 3; 4; 5] ∨
   same_values (faces [6; 4; 3; 2; 5]) [2; 3; 4; 5; 6]).
Proof.
  assert (Hh : valid_hand [6; 4; 3; 2; 5]) by hand_ok.
  split; [done|]. exact (largeStraight_score _ Hh).
Defined.

(** C9: on a valid hand, yahtzee scores 50 exactly when the frequency
    multiset is the single count 5, that is when all five dice show one
    face, and 0 otherwise; reading the first entry of [freq] alone decides
    the same, since then that entry is the only one. *)
Theorem yahtzee_score hand :
  valid_hand hand →
  (evalRoll yahtzee hand = Ok 50 ↔ frequencies hand = [5]) ∧
  (frequencies hand ≠ [5] → evalRoll yahtzee hand = Ok 0) ∧
  (frequencies hand = [5] ↔ ∃ v, Forall (λ d, d = v) hand) ∧
  (Rule.freq hand !! 0%nat = Some 5 ↔ Rule.freq hand = [5]).
Proof.
  intros [Hlen _].
  pose proof (frequencies_all_same hand Hlen) as Hsame.
  pose proof (first_freq_all_same hand Hlen) as Hfirst.
  rewrite <- Hsame in Hfirst.
  assert (Rule.freq hand = [5] ↔ frequencies hand = [5]) as Hfreq.
  { rewrite <- !Permutation_singleton_r. by rewrite freq_frequencies. }
  split_and!; [| |done|].
  - simpl. destruct (JsArray.first_is _ _); intuition congruence.
  - simpl. destruct (JsArray.first_is _ _); intuition congruence.
  - by rewrite Hfreq, <- first_is_true.
Qed.

Lemma yahtzee_score_witness :
  valid_hand [4; 4; 4; 4; 4] ∧
  (evalRoll yahtzee [4; 4; 4; 4; 4] = Ok 50 ↔
   frequencies [4; 4; 4; 4; 4] = [5]) ∧
  (frequencies [4; 4; 4; 4; 4] ≠ [5] →
   evalRoll yahtzee [4; 4; 4; 4; 4] = Ok 0) ∧
  (frequencies [4; 4; 4; 4; 4] = [5] ↔
   ∃ v, Forall (λ d, d = v) [4; 4; 4; 4; 4]) ∧
  (Rule.freq [4; 4; 4; 4; 4] !! 0%nat = Some 5 ↔
   Rule.freq [4; 4; 4; 4; 4] = [5]).
Proof.
  assert (Hh : valid_hand [4; 4; 4; 4; 4]) by hand_ok.
  split; [done|]. exact (yahtzee_score _ Hh).
Defined.

(** C10: on a valid hand, when largeStraight gives a nonzero score (40),
    smallStraight gives a nonzero score (30) too. *)
Theorem large_implies_small hand :
  valid_hand hand →
  evalRoll largeStraight hand ≠ Ok 0 →
  evalRoll largeStraight hand = Ok 40 ∧ evalRoll smallStraight hand = Ok 30.
Proof.
  intros Hhand Hnz.
  destruct (largeStraight_run hand) as [Hrun Hzero].
  assert (Hlarge : large_run (faces hand)).
  { destruct (evalRoll_defined largeStraight hand) as [n Hn];
      [by apply valid_hand_nonempty|].
    apply Hrun. simpl in *. by destruct (_ && (_ || _)). }
  split; [by apply Hrun|].
  apply smallStraight_run, same_values_small_run.
  by apply large_faces.
Qed.

Lemma large_implies_small_witness :
  valid_hand [5; 1; 4; 2; 3] ∧
  evalRoll largeStraight [5; 1; 4; 2; 3] ≠ Ok 0 ∧
  evalRoll largeStraight [5; 1; 4; 2; 3] = Ok 40 ∧
  evalRoll smallStraight [5; 1; 4; 2; 3] = Ok 30.
Proof.
  assert (Hh : valid_hand [5; 1; 4; 2; 3]) by hand_ok.
  assert (Hnz : evalRoll largeStraight [5; 1; 4; 2; 3] ≠ Ok 0)
    by (vm_compute; discriminate).
  split; [done|]. split; [done|].
  exact (large_implies_small _ Hh Hnz).
Defined.

(** ** Further facts about the frequency table *)

Section FreqTable.

Implicit Types (dice : list Z) (m : JsMap.t) (k v d c : Z).

Lemma total_values_set m k v :
  total (JsMap.values (JsMap.set m k v)) =
  total (JsMap.values m) - or_zero (JsMap.get m k) + v.
Proof.
  induction m as [|[k0 v0] m IH]; [simpl; lia|].
  cbn [JsMap.set JsMap.get]. case_decide as Hk.
  - rewrite or_zero_default. unfold total, JsMap.values. simpl. lia.
  - change (total (JsMap.values ((k0, v0) :: JsMap.set m k v)))
      with (v0 + total (JsMap.values (JsMap.set m k v))).
    change (total (JsMap.values ((k0, v0) :: m)))
      with (v0 + total (JsMap.values m)).
    rewrite IH. lia.
Qed.

Lemma freq_loop_total dice m :
  total (JsMap.values (foldl Rule.freq_step m dice)) =
  total (JsMap.values m) + Z.of_nat (length dice).
Proof.
  revert m. induction dice as [|d dice IH]; intros m.
  - simpl. lia.
  - cbn [foldl]. rewrite IH. unfold Rule.freq_step.
    rewrite total_values_set. simpl length. lia.
Qed.

Lemma elem_of_first_seen dice v : v ∈ first_seen dice ↔ v ∈ dice.
Proof.
  unfold first_seen.
  by rewrite elem_of_reverse, elem_of_remove_dups, elem_of_reverse.
Qed.

Lemma first_seen_snoc dice d :
  first_seen (dice ++ [d]) =
  if decide (d ∈ first_seen dice) then first_seen dice
  else first_seen dice ++ [d].
Proof.
  unfold first_seen at 1. rewrite reverse_snoc. cbn [remove_dups].
  destruct (decide_rel elem_of d (reverse dice)) as [Hin|Hout].
  - rewrite decide_True; [done|].
    by rewrite elem_of_first_seen, <- elem_of_reverse.
  - rewrite decide_False; [by rewrite reverse_cons|].
    by rewrite elem_of_first_seen, <- elem_of_reverse.
Qed.

Lemma freq_map_keys dice : JsMap.keys (Rule.freq_map dice) = first_seen dice.
Proof.
  induction dice as [|d dice IH] using rev_ind; [done|].
  unfold Rule.freq_map in *. rewrite foldl_snoc.
  unfold Rule.freq_step at 1. by rewrite keys_set, IH, first_seen_snoc.
Qed.

Lemma countOf_perm dice dice' v :
  dice ≡ₚ dice' → countOf dice v = countOf dice' v.
Proof. rewrite <- !count_countOf. apply count_perm. Qed.

Lemma faces_perm dice dice' : dice ≡ₚ dice' → faces dice ≡ₚ faces dice'.
Proof.
  intros Hp. unfold faces.
  apply NoDup_Permutation; [apply NoDup_remove_dups..|].
  intros x. by rewrite !elem_of_remove_dups, Hp.
Qed.

Lemma frequencies_perm dice dice' :
  dice ≡ₚ dice' → frequencies dice ≡ₚ frequencies dice'.
Proof.
  intros Hp. unfold frequencies. rewrite (faces_perm dice dice' Hp).
  erewrite list_fmap_ext; [done|].
  intros i v _. by apply countOf_perm.
Qed.

End FreqTable.

(** ** All hands *)

Section AllHands.

Implicit Types (hand l : list Z) (n : nat).

Lemma arrays_complete n l :
  length l = n → Forall (λ d, 1 ≤ d ≤ 6) l → l ∈ arrays n.
Proof.
  revert n. induction l as [|d l IH]; intros n Hlen Hall.
  - subst n. apply list_elem_of_here.
  - destruct n as [|n]; [done|]. apply Forall_cons in Hall as [Hd Hall].
    cbn [arrays]. apply list_elem_of_bind. exists d. split.
    + apply list_elem_of_fmap. exists l. split; [done|].
      apply IH; [|done]. simpl in Hlen. lia.
    + rewrite !elem_of_cons. lia.
Qed.

(** What holds of each of the 7776 arrays of five dice holds of every
    hand. *)
Lemma all_hands (P : list Z → Prop) :
  Forall P (arrays 5) → ∀ hand, valid_hand hand → P hand.
Proof.
  intros HP hand [Hlen Hall]. rewrite Forall_forall in HP.
  by apply HP, arrays_complete.
Qed.

End AllHands.

(** ** Properties of the helpers *)


(** X2: [count] lies between 0 and the length of the array; it is 0 exactly
    when the value is absent and the full length exactly when every entry
    is the value. *)
Theorem count_bounds dice val :
  0 ≤ Rule.count dice val ≤ Z.of_nat (length dice) ∧
  (Rule.count dice val = 0 ↔ val ∉ dice) ∧
  (Rule.count dice val = Z.of_nat (length dice) ↔ Forall (λ d, d = val) dice).
Proof.
  pose proof (count_nonneg dice val) as H0.
  pose proof (count_le_length dice val) as Hlen.
  pose proof (count_pos_elem_of dice val) as Hpos.
  split_and!; [done..| |apply count_full].
  split.
  - intros Hc Hin. apply Hpos in Hin. lia.
  - intros Hout. destruct (decide (0 < Rule.count dice val)) as [Hp|Hp]; [|lia].
    by apply Hpos in Hp.
Qed.

(** X3: [freq] lists, for each distinct value of the array in order of
    first occurrence, the number of times the value occurs. *)
Theorem freq_in_order_of_first_occurrence dice :
  Rule.freq dice = (λ v, countOf dice v) <$> first_seen dice.
Proof. by rewrite freq_by_key, freq_map_keys. Qed.

(** X4: every frequency is at least 1 and at most the length of the array,
    the frequencies add up to the length, there are as many of them as
    distinct values, and [freq] is empty only for the empty array. *)
Theorem freq_invariants dice :
  Forall (λ c, 1 ≤ c ≤ Z.of_nat (length dice)) (Rule.freq dice) ∧
  total (Rule.freq dice) = Z.of_nat (length dice) ∧
  length (Rule.freq dice) = length (faces dice) ∧
  (Rule.freq dice = [] ↔ dice = []).
Proof.
  split_and!.
  - apply Forall_forall. intros c (k & Hk & <-)%elem_of_freq.
    pose proof (count_le_length dice k).
    apply count_pos_elem_of in Hk. lia.
  - unfold Rule.freq, Rule.freq_map. by rewrite freq_loop_total.
  - rewrite freq_by_key, length_fmap. apply Permutation_length, freq_keys_faces.
  - split; [|by intros ->].
    intros Hnil. pose proof (freq_first dice) as Hf.
    rewrite Hnil in Hf. by destruct dice.
Qed.

(** X5: reordering the array reorders the frequencies: both arrays have the
    same frequencies with the same multiplicities. *)
Theorem freq_perm dice dice' :
  dice ≡ₚ dice' → Rule.freq dice ≡ₚ Rule.freq dice'.
Proof.
  intros Hp. rewrite !freq_frequencies. by apply frequencies_perm.
Qed.

Lemma freq_perm_witness :
  [2; 5; 2; 6; 5] ≡ₚ [5; 2; 2; 6; 5] ∧
  Rule.freq [2; 5; 2; 6; 5] ≡ₚ Rule.freq [5; 2; 2; 6; 5].
Proof.
  assert (Hp : [2; 5; 2; 6; 5] ≡ₚ [5; 2; 2; 6; 5]) by apply perm_swap.
  split; [done|]. exact (freq_perm _ _ Hp).
Defined.

(** ** The rules on arbitrary arrays *)

Section AnyArray.

Implicit Types (dice : list Z) (r : rule) (k n score : Z) (desc : string).

Lemma evalRoll_empty r : evalRoll r [] = Ok 0.
Proof.
  destruct r; try reflexivity.
  simpl. f_equal. rewrite count_nil. lia.
Qed.

Lemma Yahtzee_first_die score desc dice :
  evalRoll (Yahtzee score desc) dice =
  match dice with
  | [] => Ok 0
  | d :: _ => if decide (countOf dice d = 5) then Ok score else Ok 0
  end.
Proof.
  simpl. unfold JsArray.first_is. rewrite freq_first.
  destruct dice as [|d dice]; [done|]. simpl head. simpl fmap.
  rewrite count_countOf. case_decide as Hc.
  - by rewrite Hc.
  - destruct (Z.eqb_spec (countOf (d :: dice) d) 5); done.
Qed.

Lemma total_by_face dice :
  Forall (λ d, 1 ≤ d ≤ 6) dice →
  total dice =
  1 * Rule.count dice 1 + 2 * Rule.count dice 2 + 3 * Rule.count dice 3
  + 4 * Rule.count dice 4 + 5 * Rule.count dice 5 + 6 * Rule.count dice 6.
Proof.
  induction 1 as [|d dice Hd _ IH]; [done|].
  change (total (d :: dice)) with (d + total dice).
  rewrite IH, !count_cons.
  assert (d = 1 ∨ d = 2 ∨ d = 3 ∨ d = 4 ∨ d = 5 ∨ d = 6)
    as [->|[->|[->|[->|[->| ->]]]]] by lia;
    repeat case_decide; lia.
Qed.

Lemma total_upper dice :
  Forall (λ d, d ≤ 6) dice → total dice ≤ 6 * Z.of_nat (length dice).
Proof. unfold total. induction 1; simpl foldr; simpl length; lia. Qed.

Lemma distro_score k desc dice :
  evalRoll (SumDistro k desc) dice =
  if JsArray.some (λ c, k <=? c) (Rule.freq dice)
  then Ok (total dice) else Ok 0.
Proof.
  simpl. destruct (JsArray.some _ _) eqn:Hsome; [|done].
  apply sum_nonempty. intros ->. done.
Qed.

End AnyArray.

(** X6: no rule ever throws, whatever the array: [sum] is the only helper
    that can throw, and [SumDistro] calls it only when [freq] has an entry.
    On the empty array every rule scores 0. *)
Theorem evalRoll_never_throws r dice :
  (∃ n, evalRoll r dice = Ok n) ∧ evalRoll r [] = Ok 0.
Proof.
  split; [|apply evalRoll_empty].
  destruct dice as [|d dice].
  - exists 0. apply evalRoll_empty.
  - by apply evalRoll_defined.
Qed.



(** X8: [Yahtzee] awards its score exactly when the first die of the array
    occurs five times in it, whatever the other dice and the length; on the
    empty array it scores 0. *)
Theorem Yahtzee_reads_first_die score desc dice :
  evalRoll (Yahtzee score desc) dice =
  match dice with
  | [] => Ok 0
  | d :: _ => if decide (countOf dice d = 5) then Ok score else Ok 0
  end.
Proof. apply Yahtzee_first_die. Qed.

(** X9: on six dice [Yahtzee] depends on the order: five equal dice followed
    by another one get the award, the same dice with the other one first
    get 0. *)
Theorem Yahtzee_six_dice_order a b score desc :
  a ≠ b →
  evalRoll (Yahtzee score desc) [a; a; a; a; a; b] = Ok score ∧
  evalRoll (Yahtzee score desc) [b; a; a; a; a; a] = Ok 0.
Proof.
  intros Hab. rewrite !Yahtzee_first_die, <- !count_countOf.
  rewrite !count_cons, count_nil.
  rewrite !(decide_True (P := a = a)), !(decide_True (P := b = b)) by done.
  rewrite !(decide_False (P := a = b)), !(decide_False (P := b = a)) by done.
  split; case_decide; (done || lia).
Qed.

Lemma Yahtzee_six_dice_order_witness :
  3 ≠ 4 ∧
  evalRoll (Yahtzee 50 "all same") [3; 3; 3; 3; 3; 4] = Ok 50 ∧
  evalRoll (Yahtzee 50 "all same") [4; 3; 3; 3; 3; 3] = Ok 0.
Proof.
  assert (Hab : 3 ≠ 4) by lia.
  split; [done|]. exact (Yahtzee_six_dice_order 3 4 50 "all same" Hab).
Defined.

(** X10: on a non-empty array of dice showing 1 to 6, the scores of the six
    per-face rules add up to the score of chance. *)
Theorem per_face_scores_add_up_to_chance dice :
  dice ≠ [] → Forall (λ d, 1 ≤ d ≤ 6) dice →
  ∃ n1 n2 n3 n4 n5 n6,
    evalRoll ones dice = Ok n1 ∧ evalRoll twos dice = Ok n2 ∧
    evalRoll threes dice = Ok n3 ∧ evalRoll fours dice = Ok n4 ∧
    evalRoll fives dice = Ok n5 ∧ evalRoll sixes dice = Ok n6 ∧
    evalRoll chance dice = Ok (n1 + n2 + n3 + n4 + n5 + n6).
Proof.
  intros Hne Hall. eexists _, _, _, _, _, _.
  split_and!; try reflexivity.
  unfold chance. rewrite distro_score, distro_test_zero by done.
  f_equal. by apply total_by_face.
Qed.

Lemma per_face_scores_add_up_to_chance_witness :
  [6; 1; 1; 4] ≠ [] ∧ Forall (λ d, 1 ≤ d ≤ 6) [6; 1; 1; 4] ∧
  ∃ n1 n2 n3 n4 n5 n6,
    evalRoll ones [6; 1; 1; 4] = Ok n1 ∧ evalRoll twos [6; 1; 1; 4] = Ok n2 ∧
    evalRoll threes [6; 1; 1; 4] = Ok n3 ∧ evalRoll fours [6; 1; 1; 4] = Ok n4 ∧
    evalRoll fives [6; 1; 1; 4] = Ok n5 ∧ evalRoll sixes [6; 1; 1; 4] = Ok n6 ∧
    evalRoll chance [6; 1; 1; 4] = Ok (n1 + n2 + n3 + n4 + n5 + n6).
Proof.
  assert (Hne : [6; 1; 1; 4] ≠ []) by discriminate.
  assert (Hall : Forall (λ d, 1 ≤ d ≤ 6) [6; 1; 1; 4])
    by (repeat constructor; lia).
  split; [done|]. split; [done|].
  exact (per_face_scores_add_up_to_chance _ Hne Hall).
Defined.

(** X11: lowering the required repeat count of [SumDistro] keeps a nonzero
    score: what scores as four of a kind scores the same as three of a
    kind. *)
Theorem SumDistro_lower_count k k' desc desc' dice n :
  k' ≤ k → n ≠ 0 →
  evalRoll (SumDistro k desc) dice = Ok n →
  evalRoll (SumDistro k' desc') dice = Ok n.
Proof.
  intros Hk Hn. rewrite !distro_score.
  destruct (JsArray.some (λ c, k <=? c) _) eqn:Hsome; [|by intros [= <-]].
  intros Heval. apply some_true in Hsome as (c & Hc & Hkc%Z.leb_le).
  assert (JsArray.some (λ c, k' <=? c) (Rule.freq dice) = true) as ->; [|done].
  apply some_true. exists c. split; [done|]. apply Z.leb_le. lia.
Qed.

Lemma SumDistro_lower_count_witness :
  3 ≤ 4 ∧ 14 ≠ 0 ∧
  evalRoll fourOfKind [2; 2; 6; 2; 2] = Ok 14 ∧
  evalRoll threeOfKind [2; 2; 6; 2; 2] = Ok 14.
Proof.
  assert (Hk : 3 ≤ 4) by lia.
  assert (Hn : 14 ≠ 0) by lia.
  assert (H4 : evalRoll fourOfKind [2; 2; 6; 2; 2] = Ok 14) by reflexivity.
  split; [done|]. split; [done|]. split; [done|].
  exact (SumDistro_lower_count 4 3 _ _ _ 14 Hk Hn H4).
Defined.

(** X12: a [SumDistro] whose required repeat count exceeds the number of
    dice scores 0. *)
Theorem SumDistro_count_above_length k desc dice :
  Z.of_nat (length dice) < k → evalRoll (SumDistro k desc) dice = Ok 0.
Proof.
  intros Hk. rewrite distro_score.
  destruct (JsArray.some _ _) eqn:Hsome; [|done].
  apply distro_test in Hsome as (v & _ & Hv).
  pose proof (count_le_length dice v). rewrite count_countOf in *. lia.
Qed.

Lemma SumDistro_count_above_length_witness :
  Z.of_nat (length [4; 4; 4; 4; 4]) < 6 ∧
  evalRoll (SumDistro 6 "six of a kind") [4; 4; 4; 4; 4] = Ok 0.
Proof.
  assert (Hk : Z.of_nat (length [4; 4; 4; 4; 4]) < 6) by (simpl; lia).
  split; [done|].
  exact (SumDistro_count_above_length 6 "six of a kind" _ Hk).
Defined.



(** X14: no rule of the catalog scores more than 50 on a valid hand. *)
Theorem catalog_score_at_most_50 r hand n :
  r ∈ catalog → valid_hand hand → evalRoll r hand = Ok n → n ≤ 50.
Proof.
  intros Hr [Hlen Hall].
  assert (total hand ≤ 30) as Htot.
  { etrans; [apply total_upper|rewrite Hlen; done].
    eapply Forall_impl; [done|]. simpl. lia. }
  assert (∀ v, 0 ≤ Rule.count hand v ≤ 5) as Hcount.
  { intros v. pose proof (count_le_length hand v).
    pose proof (count_nonneg hand v). lia. }
  pose proof (Hcount 1). pose proof (Hcount 2). pose proof (Hcount 3).
  pose proof (Hcount 4). pose proof (Hcount 5). pose proof (Hcount 6).
  unfold catalog in Hr. each_of Hr; subst r;
    unfold threeOfKind, fourOfKind, chance; rewrite ?distro_score;
    simpl; repeat case_match; intros [= <-]; lia.
Qed.

Lemma catalog_score_at_most_50_witness :
  sixes ∈ catalog ∧ valid_hand [6; 6; 6; 6; 6] ∧
  evalRoll sixes [6; 6; 6; 6; 6] = Ok 30 ∧ 30 ≤ 50.
Proof.
  assert (Hr : sixes ∈ catalog) by (unfold catalog; in_list).
  assert (Hh : valid_hand [6; 6; 6; 6; 6]) by hand_ok.
  assert (He : evalRoll sixes [6; 6; 6; 6; 6] = Ok 30) by reflexivity.
  split; [done|]. split; [done|]. split; [done|].
  exact (catalog_score_at_most_50 sixes _ 30 Hr Hh He).
Defined.

(** X15: [LargeStraight] checks neither that the values are consecutive nor
    that they show 1 to 6: on any array it awards its score exactly when
    the array has five distinct values and lacks 1 or lacks 6. *)
Theorem LargeStraight_any_array score desc dice :
  evalRoll (LargeStraight score desc) dice =
  Ok (if bool_decide (length (faces dice) = 5%nat ∧ (1 ∉ dice ∨ 6 ∉ dice))
      then score else 0).
Proof.
  simpl. pose proof (large_test dice) as Htest. unfold large_run in Htest.
  unfold faces in Htest at 2 3. rewrite !elem_of_remove_dups in Htest.
  destruct (_ && (_ || _)).
  - rewrite bool_decide_eq_true_2; [done | by apply Htest].
  - rewrite bool_decide_eq_false_2; [done|]. intros Hrun.
    by apply Htest in Hrun.
Qed.

(** ** How the rules relate on a hand *)

(** Settle a statement about every hand by evaluating it on each array of
    five dice. *)
Ltac by_all_hands :=
  lazymatch goal with
  | |- ∀ h, valid_hand h → @?P h => apply (all_hands P); compute_done
  end.

(** X16: a hand that scores as yahtzee scores its sum as three and as four
    of a kind, and scores 0 as full house and as either straight. *)
Theorem yahtzee_hand_other_scores hand :
  valid_hand hand → evalRoll yahtzee hand = Ok 50 →
  evalRoll threeOfKind hand = evalRoll chance hand ∧
  evalRoll fourOfKind hand = evalRoll chance hand ∧
  evalRoll fullHouse hand = Ok 0 ∧
  evalRoll smallStraight hand = Ok 0 ∧
  evalRoll largeStraight hand = Ok 0.
Proof.
  revert hand. by_all_hands.
Qed.

Lemma yahtzee_hand_other_scores_witness :
  valid_hand [2; 2; 2; 2; 2] ∧ evalRoll yahtzee [2; 2; 2; 2; 2] = Ok 50 ∧
  evalRoll threeOfKind [2; 2; 2; 2; 2] = evalRoll chance [2; 2; 2; 2; 2] ∧
  evalRoll fourOfKind [2; 2; 2; 2; 2] = evalRoll chance [2; 2; 2; 2; 2] ∧
  evalRoll fullHouse [2; 2; 2; 2; 2] = Ok 0 ∧
  evalRoll smallStraight [2; 2; 2; 2; 2] = Ok 0 ∧
  evalRoll largeStraight [2; 2; 2; 2; 2] = Ok 0.
Proof.
  assert (Hh : valid_hand [2; 2; 2; 2; 2]) by hand_ok.
  assert (He : evalRoll yahtzee [2; 2; 2; 2; 2] = Ok 50) by reflexivity.
  split; [done|]. split; [done|].
  exact (yahtzee_hand_other_scores _ Hh He).
Defined.

(** X17: a hand that scores as full house scores its sum as three of a
    kind, and scores 0 as four of a kind, as yahtzee and as either
    straight. *)
Theorem fullHouse_hand_other_scores hand :
  valid_hand hand → evalRoll fullHouse hand = Ok 25 →
  evalRoll threeOfKind hand = evalRoll chance hand ∧
  evalRoll fourOfKind hand = Ok 0 ∧
  evalRoll yahtzee hand = Ok 0 ∧
  evalRoll smallStraight hand = Ok 0 ∧
  evalRoll largeStraight hand = Ok 0.
Proof.
  revert hand. by_all_hands.
Qed.

Lemma fullHouse_hand_other_scores_witness :
  valid_hand [5; 1; 5; 1; 5] ∧ evalRoll fullHouse [5; 1; 5; 1; 5] = Ok 25 ∧
  evalRoll threeOfKind [5; 1; 5; 1; 5] = evalRoll chance [5; 1; 5; 1; 5] ∧
  evalRoll fourOfKind [5; 1; 5; 1; 5] = Ok 0 ∧
  evalRoll yahtzee [5; 1; 5; 1; 5] = Ok 0 ∧
  evalRoll smallStraight [5; 1; 5; 1; 5] = Ok 0 ∧
  evalRoll largeStraight [5; 1; 5; 1; 5] = Ok 0.
Proof.
  assert (Hh : valid_hand [5; 1; 5; 1; 5]) by hand_ok.
  assert (He : evalRoll fullHouse [5; 1; 5; 1; 5] = Ok 25) by reflexivity.
  split; [done|]. split; [done|].
  exact (fullHouse_hand_other_scores _ Hh He).
Defined.

(** X18: a hand that scores as small straight scores 0 as three and as four
    of a kind, as full house and as yahtzee. *)
Theorem smallStraight_hand_other_scores hand :
  valid_hand hand → evalRoll smallStraight hand = Ok 30 →
  evalRoll threeOfKind hand = Ok 0 ∧
  evalRoll fourOfKind hand = Ok 0 ∧
  evalRoll fullHouse hand = Ok 0 ∧
  evalRoll yahtzee hand = Ok 0.
Proof.
  revert hand. by_all_hands.
Qed.

Lemma smallStraight_hand_other_scores_witness :
  valid_hand [3; 4; 6; 5; 3] ∧ evalRoll smallStraight [3; 4; 6; 5; 3] = Ok 30 ∧
  evalRoll threeOfKind [3; 4; 6; 5; 3] = Ok 0 ∧
  evalRoll fourOfKind [3; 4; 6; 5; 3] = Ok 0 ∧
  evalRoll fullHouse [3; 4; 6; 5; 3] = Ok 0 ∧
  evalRoll yahtzee [3; 4; 6; 5; 3] = Ok 0.
Proof.
  assert (Hh : valid_hand [3; 4; 6; 5; 3]) by hand_ok.
  assert (He : evalRoll smallStraight [3; 4; 6; 5; 3] = Ok 30)
    by (vm_compute; reflexivity).
  split; [done|]. split; [done|].
  exact (smallStraight_hand_other_scores _ Hh He).
Defined.
